(** * remote_config_wrapper: the launcher of install_remote_config.sh

    Shallow embedding of [scripts/remote_config_wrapper.c].  The program is
    a single [main] that checks [argc], prints a usage line or calls
    [execl], and reports a failed [execl] with [perror].

    The three library calls are modelled after ISO C (7.21.6.1 for
    [fprintf], 7.21.10.4 for [perror]), POSIX ([execl]) and, where these
    leave the behaviour open, the GNU C library of the target system;
    everything the surroundings decide (whether the image can be replaced,
    the text of an error number, what becomes of a write) is a field of
    [system]. *)

From Stdlib Require Import ZArith List String Ascii Bool Lia.
Import ListNotations.

Local Open Scope string_scope.
Local Open Scope Z_scope.

(** ** C data *)

(** A [char *]: the null pointer, or the string it points to. *)
Definition ptr := option string.

Definition NULL : ptr := None.

(** The newline character of the C literals (written [\n] in the source). *)
Definition LF : ascii := ascii_of_nat 10.

Definition nl : string := String LF EmptyString.

Inductive stream : Set :=
| stdout
| stderr.

(** What the process does that its surroundings can see. An [Output] is
    the text the program hands to a stream and an [Execve] the request it
    makes: both are recorded whether or not they succeed. *)
Inductive event : Type :=
| Output (f : stream) (text : string)
| Execve (path : string) (argv : list string) (envp : list string).

(** The program image that takes the process over after a successful exec. *)
Record image : Type := mkImage {
  img_path : string;
  img_argv : list string;
  img_envp : list string
}.

(** The state of the running process that the three library calls touch. *)
Record process : Type := mkProcess {
  errno : Z;
  environ : list string;
  log : list event
}.

(** What lies outside the program: the kernel's answer to an exec request
    ([None]: the image is replaced; [Some e]: refused with error number
    [e]); the message text of an error number; whether a text handed to a
    stream gets written (a closed stream takes nothing); and the error
    number the library leaves behind once it has handled the text, given
    the one before (it may change even when the text is written). *)
Record system : Type := mkSystem {
  execve : string -> list string -> list string -> option Z;
  strerror : Z -> string;
  written : stream -> string -> bool;
  errno_after : stream -> string -> Z -> Z
}.

(** ** The monad of library calls *)

(** A call returns a value, or never returns because the process image was
    replaced, or has undefined behaviour. *)
Inductive result (A : Type) : Type :=
| Value (a : A)
| Replaced (img : image)
| Undefined.

Arguments Value {A} a.
Arguments Replaced {A} img.
Arguments Undefined {A}.

Definition libc (A : Type) : Type := process -> process * result A.

Definition ret {A : Type} (a : A) : libc A := fun p => (p, Value a).

Definition bind {A B : Type} (m : libc A) (k : A -> libc B) : libc B :=
  fun p =>
    match m p with
    | (p', Value a) => k a p'
    | (p', Replaced img) => (p', Replaced img)
    | (p', Undefined) => (p', Undefined)
    end.

Definition undefined {A : Type} : libc A := fun p => (p, Undefined).

Definition emit (ev : event) : libc unit :=
  fun p => (mkProcess (errno p) (environ p) (log p ++ [ev]), Value tt).

Definition get_errno : libc Z := fun p => (p, Value (errno p)).

Definition set_errno (e : Z) : libc unit :=
  fun p => (mkProcess e (environ p) (log p), Value tt).

Definition get_environ : libc (list string) :=
  fun p => (p, Value (environ p)).

(** What [setenv], [putenv], [unsetenv] and [clearenv] come to. *)
Definition set_environ (env : list string) : libc unit :=
  fun p => (mkProcess (errno p) env (log p), Value tt).

Declare Scope libc_scope.
Delimit Scope libc_scope with libc.

Notation "x <- m ;; k" := (bind m (fun x => k))
  (at level 100, m at next level, right associativity) : libc_scope.
Notation "m ;;; k" := (bind m (fun _ => k))
  (at level 100, right associativity) : libc_scope.

Local Open Scope libc_scope.

(** ** The library *)

(** [a[i]] on an array of pointers; outside the array the behaviour is
    undefined. *)
Definition subscript (a : list ptr) (i : nat) : libc ptr :=
  match nth_error a i with
  | Some q => ret q
  | None => undefined
  end.

(** What [%s] prints for a pointer: the string it points to, and for the
    null pointer the text the GNU C library puts in its place. *)
Definition shown (q : ptr) : string :=
  match q with
  | Some s => s
  | None => "(null)"
  end.

(** The conversions of a format string. Only [%s] and [%%] are written
    out; a [%s] without an argument gives no text. *)
Fixpoint format (fmt : string) (args : list ptr) : option string :=
  match fmt with
  | EmptyString => Some EmptyString
  | String "%" (String "s" rest) =>
      match args with
      | q :: args' => option_map (append (shown q)) (format rest args')
      | [] => None
      end
  | String "%" (String "%" rest) => option_map (String "%") (format rest args)
  | String "%" _ => None
  | String c rest => option_map (String c) (format rest args)
  end.

(** The argument list of [execl] ends at its first null pointer. *)
Fixpoint until_null (args : list ptr) : option (list string) :=
  match args with
  | [] => None
  | None :: _ => Some []
  | Some s :: rest => option_map (cons s) (until_null rest)
  end.

Section Library.

Variable sys : system.

(** Handing a text to a stream: the text is recorded, [errno] becomes what
    the library leaves behind, and the answer is whether the text was
    written. *)
Definition put (f : stream) (text : string) : libc bool :=
  e <- get_errno ;;
  emit (Output f text) ;;;
  set_errno (errno_after sys f text e) ;;;
  ret (written sys f text).

(** [fprintf(f, fmt, args...)]: returns the number of characters written,
    or a negative value when the write failed. *)
Definition fprintf (f : stream) (fmt : string) (args : list ptr) : libc Z :=
  match format fmt args with
  | Some text =>
      ok <- put f text ;;
      ret (if ok then Z.of_nat (String.length text) else -1)
  | None => undefined
  end.

(** [execl(path, arg0, ..., (char * )NULL)]: the new image gets the caller's
    environment. It returns only when the kernel refuses, with -1 and
    [errno] set. *)
Definition execl (path : string) (args : list ptr) : libc Z :=
  match until_null args with
  | None => undefined
  | Some argv =>
      envp <- get_environ ;;
      emit (Execve path argv envp) ;;;
      match execve sys path argv envp with
      | None => fun p => (p, Replaced (mkImage path argv envp))
      | Some e => set_errno e ;;; ret (-1)
      end
  end.

(** [perror(s)]: [s], a colon and a blank (when [s] is not empty), the
    message of [errno], a newline, on the error stream. *)
Definition perror (s : string) : libc unit :=
  e <- get_errno ;;
  put stderr (match s with
              | EmptyString => strerror sys e ++ nl
              | String _ _ => s ++ ": " ++ strerror sys e ++ nl
              end) ;;;
  ret tt.

(** ** The program *)

Definition usage_format : string := "Usage: %s <remote_config_folder>" ++ nl.

Definition bash_path : string := "/bin/bash".

Definition script_path : string :=
  "/home/volumio/Quadify/scripts/install_remote_config.sh".

Definition main (argc : Z) (argv : list ptr) : libc Z :=
  if negb (argc =? 2) then
    a0 <- subscript argv 0 ;;
    fprintf stderr usage_format [a0] ;;;
    ret 1
  else
    a1 <- subscript argv 1 ;;
    execl bash_path [Some "bash"; Some script_path; a1; NULL] ;;;
    perror "execl failed" ;;;
    ret 1.

(** ** Program startup *)

(** A fresh process with the environment it inherited. *)
Definition start (env : list string) : process := mkProcess 0 env [].

(** The vector [main] receives for the argument strings [args]: the strings
    in order and then a null pointer, [argv[argc]] (ISO C 5.1.2.2.1). *)
Definition vector (args : list string) : list ptr := map Some args ++ [NULL].

(** The run of the program started with the argument strings [args] (the
    program name first, when there is one) in the environment [env]. *)
Definition invoke (args : list string) (env : list string)
  : process * result Z :=
  main (Z.of_nat (List.length args)) (vector args) (start env).

End Library.

(** ** What a run shows *)

(** The texts written, in order, each with its stream. *)
Fixpoint outputs (l : list event) : list (stream * string) :=
  match l with
  | [] => []
  | Output f text :: rest => (f, text) :: outputs rest
  | Execve _ _ _ :: rest => outputs rest
  end.

(** The exec requests made, in order. *)
Fixpoint exec_attempts (l : list event) : list image :=
  match l with
  | [] => []
  | Output _ _ :: rest => exec_attempts rest
  | Execve path argv envp :: rest => mkImage path argv envp :: exec_attempts rest
  end.

(** The status [main] returned, when it returned. *)
Definition returned {A : Type} (r : result A) : option A :=
  match r with
  | Value a => Some a
  | Replaced _ => None
  | Undefined => None
  end.

(** The exit status the invoker sees, [child img] being the status with
    which the image [img] ends once it runs. Nothing is known after
    undefined behaviour. *)
Definition observed_status (child : image -> Z) (r : result Z) : option Z :=
  match r with
  | Value s => Some s
  | Replaced img => Some (child img)
  | Undefined => None
  end.

(** The run ended in one of the two ways the program provides for: [main]
    returned 1, or the process became another image. *)
Definition ended_as_designed (r : result Z) : bool :=
  match r with
  | Value s => s =? 1
  | Replaced _ => true
  | Undefined => false
  end.

(** The program name as the usage message shows it: [argv[0]], which is
    the null pointer that ends the vector when there is no argument
    string at all. *)
Definition shown_name (args : list string) : string :=
  match args with
  | [] => shown NULL
  | prog :: _ => prog
  end.

(** The two diagnostics and the argument vector of the source. *)
Definition usage_message (prog : string) : string :=
  "Usage: " ++ prog ++ " <remote_config_folder>" ++ nl.

Definition exec_failure_message (sys : system) (e : Z) : string :=
  "execl failed: " ++ strerror sys e ++ nl.

Definition exec_vector (a : string) : list string :=
  ["bash"; script_path; a].

Definition bash_image (a : string) (env : list string) : image :=
  mkImage bash_path (exec_vector a) env.

(** Lines of a text: the number of newline characters, and whether the
    last character is one. *)
Fixpoint newlines (s : string) : nat :=
  match s with
  | EmptyString => 0%nat
  | String c rest => ((if Ascii.eqb c LF then 1 else 0) + newlines rest)%nat
  end.

Fixpoint ends_in_newline (s : string) : bool :=
  match s with
  | EmptyString => false
  | String c EmptyString => Ascii.eqb c LF
  | String _ rest => ends_in_newline rest
  end.

(** A text that is exactly one line: one newline, at its end. *)
Definition single_line (s : string) : bool :=
  Nat.eqb (newlines s) 1 && ends_in_newline s.

(** Every event is a text on the error stream or an exec request: nothing
    goes to any other stream. *)
Definition only_stderr_or_exec (ev : event) : bool :=
  match ev with
  | Output stderr _ => true
  | Output stdout _ => false
  | Execve _ _ _ => true
  end.

(** The usage failure as the specification words it: one usage message
    that names a program, status 1, no exec request. *)
Definition usage_failure (r : process * result Z) : Prop :=
  exists prog,
    outputs (log (fst r)) = [(stderr, usage_message prog)] /\
    snd r = Value 1 /\
    exec_attempts (log (fst r)) = [].

(** A failed run as the specification words it: one diagnostic line on the
    error stream and nothing else. *)
Definition one_diagnostic_line (r : process * result Z) : Prop :=
  exists msg,
    outputs (log (fst r)) = [(stderr, msg)] /\ single_line msg = true.

(** A run moved to the environment [env]: the process's environment and
    the one carried by every exec request and by the image that takes
    over are [env], everything else is as it was. *)
Definition in_environment (env : list string) (ev : event) : event :=
  match ev with
  | Output f text => Output f text
  | Execve path argv _ => Execve path argv env
  end.

Definition moved_to (env : list string) (r : process * result Z)
  : process * result Z :=
  (mkProcess (errno (fst r)) env (map (in_environment env) (log (fst r))),
   match snd r with
   | Value s => Value s
   | Replaced img => Replaced (mkImage (img_path img) (img_argv img) env)
   | Undefined => Undefined
   end).

(** Putting [b] in the place of the last element of an argument vector,
    in a request, in an event and in the way a run ends. *)
Definition retarget (b : string) (v : list string) : list string :=
  removelast v ++ [b].

Definition retarget_event (b : string) (ev : event) : event :=
  match ev with
  | Output f text => Output f text
  | Execve path argv envp => Execve path (retarget b argv) envp
  end.

Definition retarget_result (b : string) (r : result Z) : result Z :=
  match r with
  | Value s => Value s
  | Replaced img =>
      Replaced (mkImage (img_path img) (retarget b (img_argv img)) (img_envp img))
  | Undefined => Undefined
  end.

(** ** Systems used in the examples *)

Definition ENOENT : Z := 2.

Definition E2BIG : Z := 7.

Definition error_text (e : Z) : string :=
  if e =? ENOENT then "No such file or directory"
  else if e =? E2BIG then "Argument list too long"
  else "Unknown error".

Definition EINVAL : Z := 22.

(** Every exec request is accepted; texts are written and [errno] is left
    alone. *)
Definition accepting : system :=
  mkSystem (fun _ _ _ => None) error_text (fun _ _ => true) (fun _ _ e => e).

(** The interpreter is not there; texts are written, and the library
    leaves EINVAL in [errno] after writing. *)
Definition interpreter_missing : system :=
  mkSystem (fun _ _ _ => Some ENOENT) error_text
           (fun _ _ => true) (fun _ _ _ => EINVAL).

(** The error stream is closed: nothing is written and [errno] tells. *)
Definition EBADF : Z := 9.

Definition stderr_closed : system :=
  mkSystem (fun _ _ _ => None) error_text
           (fun f _ => match f with stderr => false | stdout => true end)
           (fun f _ e => match f with stderr => EBADF | stdout => e end).

(** A program name with a newline in it, as [exec -a] can set it. *)
Definition two_line_name : string := "a" ++ nl ++ "b".

(** * Properties *)

(** ** Strings and lines *)

Lemma append_assoc (a b c : string) : (a ++ b) ++ c = a ++ (b ++ c).
Proof.
  induction a as [|ch a IH]; simpl.
  - reflexivity.
  - now rewrite IH.
Qed.

Lemma newlines_app (a b : string) :
  newlines (a ++ b) = (newlines a + newlines b)%nat.
Proof.
  induction a as [|ch a IH]; simpl.
  - reflexivity.
  - rewrite IH. now rewrite Nat.add_assoc.
Qed.

Lemma ends_in_newline_app (a : string) (c : ascii) (b : string) :
  ends_in_newline (a ++ String c b) = ends_in_newline (String c b).
Proof.
  induction a as [|ch a IH].
  - reflexivity.
  - change (String ch a ++ String c b) with (String ch (a ++ String c b)).
    destruct a as [|ch' a']; exact IH.
Qed.

Lemma newlines_usage_message (prog : string) :
  newlines (usage_message prog) = S (newlines prog).
Proof.
  unfold usage_message.
  change (newlines (String "U" (String "s" (String "a" (String "g"
           (String "e" (String ":" (String " "
             (prog ++ " <remote_config_folder>" ++ nl))))))))
          = S (newlines prog)).
  cbn [newlines]. rewrite newlines_app.
  change (newlines (" <remote_config_folder>" ++ nl)) with 1%nat.
  cbn. now rewrite Nat.add_1_r.
Qed.

Lemma newlines_exec_failure_message (sys : system) (e : Z) :
  newlines (exec_failure_message sys e) = S (newlines (strerror sys e)).
Proof.
  unfold exec_failure_message.
  replace ("execl failed: " ++ strerror sys e ++ nl)
    with (("execl failed: " ++ strerror sys e) ++ nl)
    by apply append_assoc.
  rewrite newlines_app, newlines_app.
  change (newlines "execl failed: ") with 0%nat.
  change (newlines nl) with 1%nat.
  now rewrite Nat.add_0_l, Nat.add_1_r.
Qed.

Lemma usage_message_ends_in_newline (prog : string) :
  ends_in_newline (usage_message prog) = true.
Proof.
  unfold usage_message.
  rewrite <- append_assoc.
  change (" <remote_config_folder>" ++ nl)
    with (String " " ("<remote_config_folder>" ++ nl)).
  now rewrite ends_in_newline_app.
Qed.

Lemma exec_failure_message_ends_in_newline (sys : system) (e : Z) :
  ends_in_newline (exec_failure_message sys e) = true.
Proof.
  unfold exec_failure_message.
  rewrite <- append_assoc. unfold nl.
  now rewrite ends_in_newline_app.
Qed.

Lemma length_append (a b : string) :
  String.length (a ++ b) = (String.length a + String.length b)%nat.
Proof.
  induction a as [|ch a IH]; simpl.
  - reflexivity.
  - now rewrite IH.
Qed.

Lemma append_cancel_r (a b s : string) : a ++ s = b ++ s -> a = b.
Proof.
  intros Heq.
  assert (Hlen : String.length a = String.length b).
  { apply (f_equal String.length) in Heq.
    rewrite !length_append in Heq. lia. }
  revert b Heq Hlen.
  induction a as [|ch a IH]; intros [|ch' b] Heq Hlen;
    try reflexivity; try discriminate Hlen.
  simpl in Heq. injection Heq as -> Heq.
  f_equal. apply IH; [exact Heq | simpl in Hlen; lia].
Qed.

Lemma usage_message_inj (p q : string) :
  usage_message p = usage_message q -> p = q.
Proof.
  unfold usage_message. intros Heq.
  apply (append_cancel_r p q (" <remote_config_folder>" ++ nl)).
  cbn in Heq. now injection Heq.
Qed.

(** ** The library calls on the inputs of [main] *)

Lemma format_usage (q : ptr) :
  format usage_format [q] = Some (usage_message (shown q)).
Proof. reflexivity. Qed.

Lemma vector_head (args : list string) :
  nth_error (vector args) 0 = Some (hd NULL (map Some args)).
Proof. destruct args; reflexivity. Qed.

Lemma shown_head (args : list string) :
  shown (hd NULL (map Some args)) = shown_name args.
Proof. destruct args; reflexivity. Qed.

Lemma vector_second (prog a : string) (rest : list string) :
  nth_error (vector (prog :: a :: rest)) 1 = Some (Some a).
Proof. reflexivity. Qed.

Lemma until_null_exec (a : string) :
  until_null [Some "bash"; Some script_path; Some a; NULL]
  = Some (exec_vector a).
Proof. reflexivity. Qed.

(** ** [main] from any process state and any vector *)

(** The usage branch, whatever the vector holds at index 0. *)
Lemma main_usage_branch (sys : system) (argc : Z) (argv : list ptr) (p : process) :
  argc <> 2 ->
  main sys argc argv p
  = match nth_error argv 0 with
    | Some q =>
        (mkProcess (errno_after sys stderr (usage_message (shown q)) (errno p))
           (environ p)
           (log p ++ [Output stderr (usage_message (shown q))]), Value 1)
    | None => (p, Undefined)
    end.
Proof.
  intros Hargc. unfold main.
  apply Z.eqb_neq in Hargc. rewrite Hargc. cbn [negb].
  unfold bind at 1, subscript.
  destruct (nth_error argv 0) as [q|]; cbn [ret undefined].
  - unfold bind at 1, fprintf. rewrite format_usage.
    unfold bind, put, get_errno, emit, set_errno, ret. cbn [errno environ log].
    destruct (written sys stderr (usage_message (shown q))); reflexivity.
  - reflexivity.
Qed.

(** The exec branch with a string at index 1. *)
Lemma main_exec_branch (sys : system) (argv : list ptr) (p : process) (a : string) :
  nth_error argv 1 = Some (Some a) ->
  main sys 2 argv p
  = match execve sys bash_path (exec_vector a) (environ p) with
    | None =>
        (mkProcess (errno p) (environ p)
           (log p ++ [Execve bash_path (exec_vector a) (environ p)]),
         Replaced (bash_image a (environ p)))
    | Some e =>
        (mkProcess (errno_after sys stderr (exec_failure_message sys e) e)
           (environ p)
           (log p ++ [Execve bash_path (exec_vector a) (environ p);
                      Output stderr (exec_failure_message sys e)]),
         Value 1)
    end.
Proof.
  intros Harg. unfold main. cbn [Z.eqb Pos.eqb negb].
  unfold bind at 1, subscript. rewrite Harg. unfold ret at 1.
  unfold bind at 1, execl. rewrite until_null_exec.
  unfold bind at 1, get_environ.
  unfold bind at 1, emit. cbn [errno environ log].
  destruct (execve sys bash_path (exec_vector a) (environ p)) as [e|].
  - unfold perror, put, bind, get_errno, emit, set_errno, ret, exec_failure_message.
    cbn [errno environ log]. rewrite <- app_assoc. reflexivity.
  - reflexivity.
Qed.

(** The exec branch with the null pointer at index 1: the argument list of
    [execl] ends one place early. *)
Lemma main_exec_branch_null (sys : system) (argv : list ptr) (p : process) :
  nth_error argv 1 = Some NULL ->
  main sys 2 argv p
  = match execve sys bash_path ["bash"; script_path] (environ p) with
    | None =>
        (mkProcess (errno p) (environ p)
           (log p ++ [Execve bash_path ["bash"; script_path] (environ p)]),
         Replaced (mkImage bash_path ["bash"; script_path] (environ p)))
    | Some e =>
        (mkProcess (errno_after sys stderr (exec_failure_message sys e) e)
           (environ p)
           (log p ++ [Execve bash_path ["bash"; script_path] (environ p);
                      Output stderr (exec_failure_message sys e)]),
         Value 1)
    end.
Proof.
  intros Harg. unfold main. cbn [Z.eqb Pos.eqb negb].
  unfold bind at 1, subscript. rewrite Harg. unfold ret at 1.
  unfold bind at 1, execl. cbn [until_null NULL option_map].
  unfold bind at 1, get_environ.
  unfold bind at 1, emit. cbn [errno environ log].
  destruct (execve sys bash_path ["bash"; script_path] (environ p)) as [e|].
  - unfold perror, put, bind, get_errno, emit, set_errno, ret, exec_failure_message.
    cbn [errno environ log]. rewrite <- app_assoc. reflexivity.
  - reflexivity.
Qed.

(** The exec branch with nothing at index 1. *)
Lemma main_exec_branch_outside (sys : system) (argv : list ptr) (p : process) :
  nth_error argv 1 = None ->
  main sys 2 argv p = (p, Undefined).
Proof.
  intros Harg. unfold main. cbn [Z.eqb Pos.eqb negb].
  unfold bind at 1, subscript. rewrite Harg. reflexivity.
Qed.

(** ** The two runs of the program *)

(** An argument count other than two: the usage line and status 1. *)
Lemma invoke_usage (sys : system) (env : list string) (args : list string) :
  List.length args <> 2%nat ->
  invoke sys args env
  = (mkProcess (errno_after sys stderr (usage_message (shown_name args)) 0) env
       [Output stderr (usage_message (shown_name args))],
     Value 1).
Proof.
  intros Hlen. unfold invoke.
  rewrite main_usage_branch by lia.
  rewrite vector_head, shown_head. reflexivity.
Qed.

(** A program name and one argument: the exec request, and what follows
    from the kernel's answer. *)
Lemma invoke_exec (sys : system) (env : list string) (prog a : string) :
  invoke sys [prog; a] env
  = match execve sys bash_path (exec_vector a) env with
    | None =>
        (mkProcess 0 env [Execve bash_path (exec_vector a) env],
         Replaced (bash_image a env))
    | Some e =>
        (mkProcess (errno_after sys stderr (exec_failure_message sys e) e) env
           [Execve bash_path (exec_vector a) env;
            Output stderr (exec_failure_message sys e)],
         Value 1)
    end.
Proof.
  unfold invoke.
  change (Z.of_nat (List.length [prog; a])) with 2.
  rewrite (main_exec_branch sys (vector [prog; a]) (start env) a
             (vector_second prog a [])).
  reflexivity.
Qed.

(** Every argument list is of one of the two kinds. *)
Lemma args_cases (args : list string) :
  (exists prog a, args = [prog; a]) \/ List.length args <> 2%nat.
Proof.
  destruct args as [|prog [|a [|b rest]]].
  - right. discriminate.
  - right. discriminate.
  - left. now exists prog, a.
  - right. discriminate.
Qed.

(** ** The claims *)

(** C1. For every invocation whose argument count is not two
    ([argc <> 2]), the launcher hands the usage message with the program
    name (as [%s] shows [argv[0]]) to the error stream and returns status
    1, and it makes no exec request. *)
Theorem wrong_argument_count_is_usage_failure
        (sys : system) (env : list string) (args : list string) :
  Z.of_nat (List.length args) <> 2 ->
  invoke sys args env
  = (mkProcess (errno_after sys stderr (usage_message (shown_name args)) 0) env
       [Output stderr (usage_message (shown_name args))],
     Value 1)
  /\ exec_attempts (log (fst (invoke sys args env))) = []
  /\ usage_failure (invoke sys args env).
Proof.
  intros Hargc.
  assert (Hlen : List.length args <> 2%nat) by lia.
  rewrite (invoke_usage sys env args Hlen).
  repeat split.
  exists (shown_name args). repeat split.
Qed.

(** C1, witness: the launcher run with no argument, with two, and without
    even a program name. *)
Lemma wrong_argument_count_witness :
  (Z.of_nat (List.length ["launcher"]) <> 2
   /\ snd (invoke accepting ["launcher"] []) = Value 1)
  /\ (Z.of_nat (List.length ["launcher"; "/mnt/config"; "extra"]) <> 2
      /\ usage_failure (invoke accepting ["launcher"; "/mnt/config"; "extra"] []))
  /\ (Z.of_nat (List.length (@nil string)) <> 2
      /\ usage_failure (invoke accepting [] [])).
Proof.
  split; [split | split; split].
  - discriminate.
  - pose proof (wrong_argument_count_is_usage_failure accepting [] ["launcher"]) as H.
    destruct H as [H _]; [discriminate | now rewrite H].
  - discriminate.
  - apply (wrong_argument_count_is_usage_failure
             accepting [] ["launcher"; "/mnt/config"; "extra"]).
    discriminate.
  - discriminate.
  - apply (wrong_argument_count_is_usage_failure accepting [] []).
    discriminate.
Defined.

(** C2. For every single argument [a], whatever it contains, the launcher
    makes exactly one exec request: for [/bin/bash], with the argument
    vector [bash], the fixed script path, [a], where [a] is the third
    element unchanged. *)
Theorem exec_request_is_exact
        (sys : system) (env : list string) (prog a : string) :
  exec_attempts (log (fst (invoke sys [prog; a] env)))
  = [mkImage "/bin/bash"
       ["bash"; "/home/volumio/Quadify/scripts/install_remote_config.sh"; a]
       env].
Proof.
  rewrite invoke_exec.
  destruct (execve sys bash_path (exec_vector a) env); reflexivity.
Qed.

(** The empty argument, and one full of blanks and shell characters. *)
Example exec_request_empty_argument :
  exec_attempts (log (fst (invoke accepting ["launcher"; EmptyString] [])))
  = [mkImage "/bin/bash"
       ["bash"; "/home/volumio/Quadify/scripts/install_remote_config.sh";
        EmptyString] []].
Proof. reflexivity. Qed.

Example exec_request_shell_characters :
  exec_attempts
    (log (fst (invoke interpreter_missing
                 ["launcher"; "a b; $(reboot) 'x' * | > &"] [])))
  = [mkImage "/bin/bash"
       ["bash"; "/home/volumio/Quadify/scripts/install_remote_config.sh";
        "a b; $(reboot) 'x' * | > &"] []].
Proof. reflexivity. Qed.

(** C3. When the kernel refuses the exec request with error number [e],
    the launcher hands [execl failed: ], the system's text for [e] and a
    newline to the error stream and returns status 1; the process is not
    replaced. *)
Theorem failed_exec_is_reported
        (sys : system) (env : list string) (prog a : string) (e : Z) :
  execve sys bash_path (exec_vector a) env = Some e ->
  invoke sys [prog; a] env
  = (mkProcess
       (errno_after sys stderr ("execl failed: " ++ strerror sys e ++ nl) e) env
       [Execve bash_path (exec_vector a) env;
        Output stderr ("execl failed: " ++ strerror sys e ++ nl)],
     Value 1).
Proof.
  intros Hfail. rewrite invoke_exec, Hfail. reflexivity.
Qed.

(** C3, witness: the interpreter is missing. *)
Lemma failed_exec_witness :
  execve interpreter_missing bash_path (exec_vector "/mnt/config") [] = Some ENOENT
  /\ outputs (log (fst (invoke interpreter_missing ["launcher"; "/mnt/config"] [])))
     = [(stderr, "execl failed: No such file or directory" ++ nl)]
  /\ snd (invoke interpreter_missing ["launcher"; "/mnt/config"] []) = Value 1.
Proof.
  split; [reflexivity |].
  rewrite (failed_exec_is_reported interpreter_missing [] "launcher" "/mnt/config" ENOENT);
    [split; reflexivity | reflexivity].
Defined.

(** C4. When the kernel accepts the exec request, the run ends there:
    [main] does not return, the request is the only event (so neither the
    diagnostic nor the return after the call is reached), and the exit
    status the invoker sees is the one of the new image. *)
Theorem successful_exec_never_returns
        (sys : system) (env : list string) (prog a : string) :
  execve sys bash_path (exec_vector a) env = None ->
  snd (invoke sys [prog; a] env) = Replaced (bash_image a env)
  /\ returned (snd (invoke sys [prog; a] env)) = None
  /\ log (fst (invoke sys [prog; a] env)) = [Execve bash_path (exec_vector a) env]
  /\ outputs (log (fst (invoke sys [prog; a] env))) = []
  /\ forall child : image -> Z,
       observed_status child (snd (invoke sys [prog; a] env))
       = Some (child (bash_image a env)).
Proof.
  intros Hok. rewrite invoke_exec, Hok. cbn. repeat split.
Qed.

(** C4, witness: an accepted request whose script ends with status 0. *)
Lemma successful_exec_witness :
  execve accepting bash_path (exec_vector "/mnt/config") [] = None
  /\ returned (snd (invoke accepting ["launcher"; "/mnt/config"] [])) = None
  /\ observed_status (fun _ => 0)
       (snd (invoke accepting ["launcher"; "/mnt/config"] [])) = Some 0.
Proof.
  split; [reflexivity |].
  destruct (successful_exec_never_returns accepting [] "launcher" "/mnt/config")
    as (_ & Hret & _ & _ & Hobs); [reflexivity |].
  split; [exact Hret | exact (Hobs (fun _ => 0))].
Defined.

(** C5. The launcher never returns status 0: whenever [main] returns, on
    the wrong argument count or after a refused exec request, it returns
    1, and a status 0 seen by the invoker is the status of the image that
    replaced the launcher. *)
Theorem launcher_returns_only_1
        (sys : system) (env : list string) (args : list string)
        (child : image -> Z) :
  (returned (snd (invoke sys args env)) = Some 1
   \/ returned (snd (invoke sys args env)) = None)
  /\ (observed_status child (snd (invoke sys args env)) = Some 0 ->
      exists img,
        snd (invoke sys args env) = Replaced img /\ child img = 0).
Proof.
  destruct (args_cases args) as [(prog & a & ->) | Hlen].
  - rewrite invoke_exec.
    destruct (execve sys bash_path (exec_vector a) env) as [e|]; cbn.
    + split; [now left | discriminate].
    + split; [now right |].
      intros Hobs. exists (bash_image a env).
      split; [reflexivity | congruence].
  - rewrite (invoke_usage sys env args Hlen). cbn.
    split; [now left | discriminate].
Qed.

(** C5, witness: status 0 is seen when the script that took over ends
    with 0, and then [main] has not returned. *)
Lemma launcher_returns_only_1_witness :
  observed_status (fun _ => 0)
    (snd (invoke accepting ["launcher"; "/mnt/config"] [])) = Some 0
  /\ returned (snd (invoke accepting ["launcher"; "/mnt/config"] [])) = None
  /\ exists img,
       snd (invoke accepting ["launcher"; "/mnt/config"] []) = Replaced img.
Proof.
  split; [reflexivity |].
  destruct (launcher_returns_only_1 accepting [] ["launcher"; "/mnt/config"]
              (fun _ => 0)) as [Hret Hzero].
  split.
  - destruct Hret as [Hone | Hnone]; [discriminate Hone | exact Hnone].
  - destruct (Hzero eq_refl) as (img & Himg & _). now exists img.
Defined.

(** C6 (amended). Every failed invocation hands exactly one diagnostic
    message to the error stream and nothing to any other; the message
    ends in a newline and is a single line exactly when the text put into
    it (the program name as shown in the usage message, the system's error
    text after a refused exec request) has no newline of its own. A
    successful hand-off writes nothing. On every run the only events are
    texts on the error stream and the exec request. *)
Theorem failure_writes_one_message
        (sys : system) (env : list string) (args : list string) :
  forallb only_stderr_or_exec (log (fst (invoke sys args env))) = true
  /\ match snd (invoke sys args env) with
     | Value _ =>
         exists msg inserted,
           outputs (log (fst (invoke sys args env))) = [(stderr, msg)]
           /\ ends_in_newline msg = true
           /\ single_line msg = Nat.eqb (newlines inserted) 0
           /\ ((msg = usage_message (shown_name args)
                /\ inserted = shown_name args)
               \/ exists e, msg = exec_failure_message sys e
                            /\ inserted = strerror sys e)
     | Replaced _ => outputs (log (fst (invoke sys args env))) = []
     | Undefined => False
     end.
Proof.
  destruct (args_cases args) as [(prog & a & ->) | Hlen].
  - rewrite invoke_exec.
    destruct (execve sys bash_path (exec_vector a) env) as [e|]; cbn.
    + split; [reflexivity |].
      exists (exec_failure_message sys e), (strerror sys e).
      repeat split.
      * apply exec_failure_message_ends_in_newline.
      * unfold single_line.
        rewrite newlines_exec_failure_message,
                exec_failure_message_ends_in_newline.
        now rewrite andb_true_r.
      * right. now exists e.
    + split; reflexivity.
  - rewrite (invoke_usage sys env args Hlen). cbn.
    split; [reflexivity |].
    exists (usage_message (shown_name args)), (shown_name args).
    repeat split.
    + apply usage_message_ends_in_newline.
    + unfold single_line.
      rewrite newlines_usage_message, usage_message_ends_in_newline.
      now rewrite andb_true_r.
    + now left.
Qed.

(** C6, counterexample: a failed invocation whose program name holds a
    newline writes a usage message of two lines. *)
Lemma failure_not_always_one_line :
  snd (invoke accepting [two_line_name] []) = Value 1
  /\ ~ one_diagnostic_line (invoke accepting [two_line_name] []).
Proof.
  split; [reflexivity |].
  intros (msg & Hout & Hline).
  cbn in Hout. injection Hout as <-. discriminate Hline.
Qed.

(** C7. With no argument string at all ([argc = 0]) the launcher takes the
    usage path: [argv[0]] is the null pointer that ends the vector, [%s]
    shows it as [(null)], one line that starts with [Usage:] goes to the
    error stream, [main] returns 1 and no exec request is made. The same
    holds with the program name alone ([argc = 1]), whatever the name. *)
Theorem usage_without_arguments (sys : system) (env : list string) :
  (outputs (log (fst (invoke sys [] env)))
   = [(stderr, "Usage: (null) <remote_config_folder>" ++ nl)]
   /\ single_line ("Usage: (null) <remote_config_folder>" ++ nl) = true
   /\ snd (invoke sys [] env) = Value 1
   /\ exec_attempts (log (fst (invoke sys [] env))) = [])
  /\ forall prog : string,
       outputs (log (fst (invoke sys [prog] env)))
       = [(stderr, usage_message prog)]
       /\ prefix "Usage:" (usage_message prog) = true
       /\ snd (invoke sys [prog] env) = Value 1
       /\ exec_attempts (log (fst (invoke sys [prog] env))) = [].
Proof.
  split.
  - rewrite (invoke_usage sys env []) by discriminate. repeat split.
  - intros prog.
    rewrite (invoke_usage sys env [prog]) by discriminate. repeat split.
Qed.

(** C8. Two invocations that differ only in their one argument, the kernel
    answering both exec requests alike, write the same texts and end with
    the same status; their events and their ends differ only in that the
    last element of the exec vector is the other argument. *)
Theorem argument_is_opaque
        (sys : system) (env : list string) (prog a b : string) :
  execve sys bash_path (exec_vector a) env
  = execve sys bash_path (exec_vector b) env ->
  outputs (log (fst (invoke sys [prog; a] env)))
  = outputs (log (fst (invoke sys [prog; b] env)))
  /\ returned (snd (invoke sys [prog; a] env))
     = returned (snd (invoke sys [prog; b] env))
  /\ errno (fst (invoke sys [prog; a] env))
     = errno (fst (invoke sys [prog; b] env))
  /\ map (retarget_event b) (log (fst (invoke sys [prog; a] env)))
     = log (fst (invoke sys [prog; b] env))
  /\ retarget_result b (snd (invoke sys [prog; a] env))
     = snd (invoke sys [prog; b] env).
Proof.
  intros Hsame. rewrite !invoke_exec, <- Hsame.
  destruct (execve sys bash_path (exec_vector a) env) as [e|];
    cbn; repeat split.
Qed.

(** C8, witness: a path and a string of shell syntax, both handed over. *)
Lemma argument_is_opaque_witness :
  execve accepting bash_path (exec_vector "/mnt/config") []
  = execve accepting bash_path (exec_vector "; reboot #") []
  /\ outputs (log (fst (invoke accepting ["launcher"; "/mnt/config"] [])))
     = outputs (log (fst (invoke accepting ["launcher"; "; reboot #"] [])))
  /\ retarget_result "; reboot #"
       (snd (invoke accepting ["launcher"; "/mnt/config"] []))
     = snd (invoke accepting ["launcher"; "; reboot #"] []).
Proof.
  split; [reflexivity |].
  destruct (argument_is_opaque accepting [] "launcher" "/mnt/config" "; reboot #")
    as (Hout & _ & _ & _ & Hend); [reflexivity |].
  split; [exact Hout | exact Hend].
Defined.

(** C9. On every run the environment of the process stays the one it was
    started with, and every exec request, hence the image that takes
    over, carries exactly that environment. The launcher does not look
    into the environment either: started in another environment, the
    kernel answering its exec request alike, it has the same run, with
    the other environment handed on. *)
Theorem environment_is_inherited
        (sys : system) (env env' : list string) (args : list string) :
  environ (fst (invoke sys args env)) = env
  /\ Forall (fun img => img_envp img = env)
            (exec_attempts (log (fst (invoke sys args env))))
  /\ match snd (invoke sys args env) with
     | Replaced img => img_envp img = env
     | Value _ => True
     | Undefined => True
     end
  /\ ((forall a, execve sys bash_path (exec_vector a) env
                 = execve sys bash_path (exec_vector a) env') ->
      moved_to env' (invoke sys args env) = invoke sys args env').
Proof.
  destruct (args_cases args) as [(prog & a & ->) | Hlen].
  - rewrite !invoke_exec.
    repeat split.
    + destruct (execve sys bash_path (exec_vector a) env); reflexivity.
    + destruct (execve sys bash_path (exec_vector a) env); cbn;
        repeat constructor.
    + destruct (execve sys bash_path (exec_vector a) env); cbn; constructor.
    + intros Hsame. rewrite <- (Hsame a).
      destruct (execve sys bash_path (exec_vector a) env); reflexivity.
  - rewrite !(invoke_usage sys _ args Hlen). cbn.
    repeat split. constructor.
Qed.

(** C9, witness: the same hand-off from two environments, one of them
    holding a secret. *)
Lemma environment_is_inherited_witness :
  (forall a, execve accepting bash_path (exec_vector a) ["HOME=/root"]
             = execve accepting bash_path (exec_vector a) ["TOKEN=s3cr3t"])
  /\ moved_to ["TOKEN=s3cr3t"]
       (invoke accepting ["launcher"; "/mnt/config"] ["HOME=/root"])
     = invoke accepting ["launcher"; "/mnt/config"] ["TOKEN=s3cr3t"]
  /\ outputs (log (fst (invoke accepting ["launcher"; "/mnt/config"]
                          ["TOKEN=s3cr3t"]))) = [].
Proof.
  split; [reflexivity |].
  destruct (environment_is_inherited accepting ["HOME=/root"] ["TOKEN=s3cr3t"]
              ["launcher"; "/mnt/config"]) as (_ & _ & _ & Hmove).
  split; [apply Hmove; reflexivity | reflexivity].
Defined.

(** C10. Every invocation ends after at most two library calls that leave
    an event, in one of two ways: [main] returns status 1, or the process
    is replaced by the interpreter. *)
Theorem every_run_ends
        (sys : system) (env : list string) (args : list string) :
  (List.length (log (fst (invoke sys args env))) <= 2)%nat
  /\ (snd (invoke sys args env) = Value 1
      \/ exists a, snd (invoke sys args env) = Replaced (bash_image a env))
  /\ ended_as_designed (snd (invoke sys args env)) = true.
Proof.
  destruct (args_cases args) as [(prog & a & ->) | Hlen].
  - rewrite invoke_exec.
    destruct (execve sys bash_path (exec_vector a) env); cbn.
    + repeat split; [lia | now left].
    + repeat split; [lia | right; now exists a].
  - rewrite (invoke_usage sys env args Hlen). cbn.
    repeat split; [lia | now left].
Qed.

(** * Further properties of [main] *)

Lemma invoke_usage_named (sys : system) (env : list string)
      (prog : string) (rest : list string) :
  List.length rest <> 1%nat ->
  invoke sys (prog :: rest) env
  = (mkProcess (errno_after sys stderr (usage_message prog) 0) env
       [Output stderr (usage_message prog)],
     Value 1).
Proof.
  intros Hlen.
  rewrite (invoke_usage sys env (prog :: rest)); [reflexivity |].
  simpl List.length. lia.
Qed.

(** X1. The failure diagnostic reports the error of this exec request:
    whatever [errno] held when [main] was entered, and whatever was logged
    before, a refused request with error number [e] appends the request
    and the line for [e], and [main] returns 1. *)
Theorem diagnostic_reports_this_exec_error
        (sys : system) (p : process) (prog a : string) (e : Z) :
  execve sys bash_path (exec_vector a) (environ p) = Some e ->
  log (fst (main sys 2 (vector [prog; a]) p))
  = (log p ++ [Execve bash_path (exec_vector a) (environ p);
               Output stderr ("execl failed: " ++ strerror sys e ++ nl)])%list
  /\ snd (main sys 2 (vector [prog; a]) p) = Value 1.
Proof.
  intros Hfail.
  rewrite (main_exec_branch sys (vector [prog; a]) p a (vector_second prog a [])).
  rewrite Hfail. split; reflexivity.
Qed.

(** X1, witness: [errno] still holds E2BIG from earlier; the line names the
    missing file. *)
Lemma diagnostic_reports_this_exec_error_witness :
  execve interpreter_missing bash_path (exec_vector "/mnt/config")
    (environ (mkProcess E2BIG [] [])) = Some ENOENT
  /\ outputs (log (fst (main interpreter_missing 2
                          (vector ["launcher"; "/mnt/config"])
                          (mkProcess E2BIG [] []))))
     = [(stderr, "execl failed: No such file or directory" ++ nl)].
Proof.
  split; [reflexivity |].
  destruct (diagnostic_reports_this_exec_error interpreter_missing
              (mkProcess E2BIG [] []) "launcher" "/mnt/config" ENOENT)
    as [Hlog _]; [reflexivity |].
  rewrite Hlog. reflexivity.
Defined.

(** X2. With one argument the program name plays no part: the run is the
    same under any name, so the name is neither forwarded to the new image
    nor written in the failure diagnostic. *)
Theorem program_name_not_forwarded
        (sys : system) (env : list string) (prog prog' a : string) :
  invoke sys [prog; a] env = invoke sys [prog'; a] env.
Proof.
  now rewrite !invoke_exec.
Qed.

(** X3. On the usage path the arguments after the program name are never
    looked at: two argument lists of wrong length under the same name give
    the same run. *)
Theorem usage_ignores_further_arguments
        (sys : system) (env : list string) (prog : string)
        (rest rest' : list string) :
  List.length rest <> 1%nat ->
  List.length rest' <> 1%nat ->
  invoke sys (prog :: rest) env = invoke sys (prog :: rest') env.
Proof.
  intros Hrest Hrest'.
  now rewrite (invoke_usage_named sys env prog rest Hrest),
              (invoke_usage_named sys env prog rest' Hrest').
Qed.

(** X3, witness: no argument at all, and three of them. *)
Lemma usage_ignores_further_arguments_witness :
  List.length (@nil string) <> 1%nat
  /\ List.length ["a"; "b"; "c"] <> 1%nat
  /\ invoke accepting ["launcher"] []
     = invoke accepting ["launcher"; "a"; "b"; "c"] [].
Proof.
  split; [discriminate | split; [discriminate |]].
  apply (usage_ignores_further_arguments accepting [] "launcher" [] ["a"; "b"; "c"]);
    discriminate.
Defined.

(** X4. With a program name, an exec request is made exactly when one
    argument follows it, and then once: a refused request is not repeated. *)
Theorem exec_attempted_iff_one_argument
        (sys : system) (env : list string) (prog : string) (rest : list string) :
  exec_attempts (log (fst (invoke sys (prog :: rest) env)))
  = match rest with
    | [a] => [bash_image a env]
    | _ => []
    end.
Proof.
  destruct rest as [|a [|b rest]].
  - now rewrite (invoke_usage_named sys env prog []).
  - rewrite invoke_exec.
    destruct (execve sys bash_path (exec_vector a) env); reflexivity.
  - now rewrite (invoke_usage_named sys env prog (a :: b :: rest)).
Qed.

(** X5. For every argument count, vector and process state, [main] only
    appends to the log, at most two events, each a text on the error
    stream or an exec request, and leaves the environment as it was. *)
Theorem main_only_appends
        (sys : system) (argc : Z) (argv : list ptr) (p : process) :
  exists suffix,
    log (fst (main sys argc argv p)) = (log p ++ suffix)%list
    /\ (List.length suffix <= 2)%nat
    /\ forallb only_stderr_or_exec suffix = true
    /\ environ (fst (main sys argc argv p)) = environ p.
Proof.
  destruct (Z.eq_dec argc 2) as [-> | Hargc].
  - destruct (nth_error argv 1) as [[a|]|] eqn:Harg.
    + rewrite (main_exec_branch sys argv p a Harg).
      destruct (execve sys bash_path (exec_vector a) (environ p)) as [e|]; cbn.
      * eexists. repeat split. cbn. lia.
      * eexists. repeat split. cbn. lia.
    + rewrite (main_exec_branch_null sys argv p Harg).
      destruct (execve sys bash_path ["bash"; script_path] (environ p)) as [e|]; cbn.
      * eexists. repeat split. cbn. lia.
      * eexists. repeat split. cbn. lia.
    + rewrite (main_exec_branch_outside sys argv p Harg). cbn.
      exists []. rewrite app_nil_r. repeat split. cbn. lia.
  - rewrite (main_usage_branch sys argc argv p Hargc).
    destruct (nth_error argv 0) as [q|]; cbn.
    + eexists. repeat split. cbn. lia.
    + exists []. rewrite app_nil_r. repeat split. cbn. lia.
Qed.

(** X6. When the argument count is not two, what [main] writes and returns
    does not depend on the system: the events, the result and the
    environment are the same whatever the kernel would answer to an exec
    request, whatever the error texts are and whatever becomes of the
    write. *)
Theorem usage_branch_ignores_system
        (sys sys' : system) (argc : Z) (argv : list ptr) (p : process) :
  argc <> 2 ->
  log (fst (main sys argc argv p)) = log (fst (main sys' argc argv p))
  /\ snd (main sys argc argv p) = snd (main sys' argc argv p)
  /\ environ (fst (main sys argc argv p)) = environ (fst (main sys' argc argv p)).
Proof.
  intros Hargc.
  rewrite (main_usage_branch sys argc argv p Hargc),
          (main_usage_branch sys' argc argv p Hargc).
  destruct (nth_error argv 0) as [q|]; repeat split.
Qed.

(** X6, witness: the same usage line and status whether the interpreter is
    there or not, and whether or not the error stream is open. *)
Lemma usage_branch_ignores_system_witness :
  1 <> 2
  /\ log (fst (main accepting 1 (vector ["launcher"]) (start [])))
     = log (fst (main stderr_closed 1 (vector ["launcher"]) (start [])))
  /\ snd (main interpreter_missing 1 (vector ["launcher"]) (start []))
     = snd (main stderr_closed 1 (vector ["launcher"]) (start [])).
Proof.
  split; [discriminate |].
  split.
  - apply (usage_branch_ignores_system accepting stderr_closed 1
             (vector ["launcher"]) (start [])).
    discriminate.
  - apply (usage_branch_ignores_system interpreter_missing stderr_closed 1
             (vector ["launcher"]) (start [])).
    discriminate.
Defined.

(** X7. The usage line tells program names apart: two usage failures
    under different names write different texts. *)
Theorem usage_line_tells_names_apart
        (sys : system) (env : list string) (prog prog' : string)
        (rest rest' : list string) :
  List.length rest <> 1%nat ->
  List.length rest' <> 1%nat ->
  prog <> prog' ->
  outputs (log (fst (invoke sys (prog :: rest) env)))
  <> outputs (log (fst (invoke sys (prog' :: rest') env))).
Proof.
  intros Hrest Hrest' Hneq.
  rewrite (invoke_usage_named sys env prog rest Hrest),
          (invoke_usage_named sys env prog' rest' Hrest').
  cbn [fst log outputs]. intros Heq.
  apply Hneq, usage_message_inj.
  exact (f_equal (fun l => match l with
                           | (_, text) :: _ => text
                           | [] => EmptyString
                           end) Heq).
Qed.

(** X7, witness: a name and a longer name that starts with it. *)
Lemma usage_line_tells_names_apart_witness :
  List.length (@nil string) <> 1%nat
  /\ "launcher" <> "launcher2"
  /\ outputs (log (fst (invoke accepting ["launcher"] [])))
     <> outputs (log (fst (invoke accepting ["launcher2"] []))).
Proof.
  split; [discriminate | split; [discriminate |]].
  apply (usage_line_tells_names_apart accepting [] "launcher" "launcher2" [] []);
    discriminate.
Defined.

(** X8. [main] reads one element of the vector and no other: the one at
    index 1 when the argument count is two, the one at index 0 otherwise.
    Vectors that agree there give the same run. *)
Theorem main_reads_one_element
        (sys : system) (argc : Z) (argv argv' : list ptr) (p : process) :
  nth_error argv (if argc =? 2 then 1%nat else 0%nat)
  = nth_error argv' (if argc =? 2 then 1%nat else 0%nat) ->
  main sys argc argv p = main sys argc argv' p.
Proof.
  destruct (Z.eq_dec argc 2) as [-> | Hargc].
  - cbn [Z.eqb Pos.eqb]. intros Hsame.
    destruct (nth_error argv' 1) as [[a|]|] eqn:Harg.
    + now rewrite (main_exec_branch sys argv p a Hsame),
                  (main_exec_branch sys argv' p a Harg).
    + now rewrite (main_exec_branch_null sys argv p Hsame),
                  (main_exec_branch_null sys argv' p Harg).
    + now rewrite (main_exec_branch_outside sys argv p Hsame),
                  (main_exec_branch_outside sys argv' p Harg).
  - assert (Hne : (argc =? 2) = false) by now apply Z.eqb_neq.
    rewrite Hne. intros Hsame.
    rewrite (main_usage_branch sys argc argv p Hargc),
            (main_usage_branch sys argc argv' p Hargc).
    now rewrite Hsame.
Qed.

(** X8, witness: with two arguments counted, what stands at index 0 does
    not matter. *)
Lemma main_reads_one_element_witness :
  nth_error (vector ["launcher"; "/mnt/config"]) (if 2 =? 2 then 1%nat else 0%nat)
  = nth_error (vector ["wrapper"; "/mnt/config"]) (if 2 =? 2 then 1%nat else 0%nat)
  /\ main accepting 2 (vector ["launcher"; "/mnt/config"]) (start [])
     = main accepting 2 (vector ["wrapper"; "/mnt/config"]) (start []).
Proof.
  split; [reflexivity |].
  apply (main_reads_one_element accepting 2
           (vector ["launcher"; "/mnt/config"]) (vector ["wrapper"; "/mnt/config"])
           (start [])).
  reflexivity.
Defined.
